(** * Storage HTTP handlers of the volume manager (pkg/router/storage.go)

    A shallow embedding of the five gin handlers of [storageHandlers]
    ([createStorageHandler], [importStoragesHandler], [getStoragesHandler],
    [updateStorageHandler], [deleteStorageHandler]) and of the registration
    of their routes ([SetupStorageHandlers]), together with the parts
    of their collaborators that the handlers touch: the gin context and
    response writer, the [server.StorageActions] interface, the
    [TranslateValidate] helper and the logger.

    Handlers are effectful: they call the action layer (which owns the
    domain state), write to the response writer and log warnings.  They are
    embedded in a small state monad over a [World] that holds the response
    writer, the domain state, and two traces (action calls, warnings). *)

From stdpp Require Import base list strings.
From Stdlib Require Import ZArith.

Local Open Scope Z_scope.
Local Open Scope string_scope.
Local Open Scope list_scope.

(** ** Go slices

    A Go slice is either [nil] or a (possibly empty) sequence; the two differ
    once rendered as JSON ([null] against an array).  [append] on a nil slice
    yields a non-nil one. *)
Module Slice.

Inductive slice (A : Type) : Type :=
  | nil_slice
  | make_slice (l : list A).
Arguments nil_slice {A}.
Arguments make_slice {A} l.

Definition elems {A} (s : slice A) : list A :=
  match s with
  | nil_slice => []
  | make_slice l => l
  end.

Definition len {A} (s : slice A) : nat := length (elems s).

Definition append {A} (s : slice A) (x : A) : slice A :=
  make_slice (elems s ++ [x]).

Definition is_nil {A} (s : slice A) : bool :=
  match s with
  | nil_slice => true
  | make_slice _ => false
  end.

End Slice.
Export Slice.

(** ** Data model *)

(** [model.Storage]: the handlers read and write the fields [Name] and
    [Size] only. *)
Record Storage : Type := mkStorage {
  Name : string;
  Size : Z;
}.

(** Modelled from the spec: [kubeClientModel.ImportResult] belongs to an
    imported package whose source is not in src/.  The spec describes an
    entry as carrying an identifier, an optional secondary field and, for
    failures, an error message. *)
Record ImportResult : Type := mkImportResult {
  ir_name : string;
  ir_secondary : string;
  ir_message : option string;
}.

Record ImportResponse : Type := mkImportResponse {
  Imported : slice ImportResult;
  Failed : slice ImportResult;
}.

(** Modelled from the spec: [ImportResponse.ImportSuccessful(name, secondary)]
    (imported package, source not in src/) records one more entry at the end
    of the imported list. *)
Definition ImportSuccessful (resp : ImportResponse) (name secondary : string)
  : ImportResponse :=
  {| Imported := append (Imported resp) (mkImportResult name secondary None);
     Failed := Failed resp |}.

(** Modelled from the spec: [ImportResponse.ImportFailed(name, secondary,
    message)] (imported package, source not in src/) records one more entry,
    with its error message, at the end of the failed list. *)
Definition ImportFailed (resp : ImportResponse) (name secondary message : string)
  : ImportResponse :=
  {| Imported := Imported resp;
     Failed := append (Failed resp) (mkImportResult name secondary (Some message)) |}.

(** ** HTTP status codes used by the handlers (net/http) *)
Definition StatusOK : Z := 200.
Definition StatusCreated : Z := 201.
Definition StatusAccepted : Z := 202.
Definition StatusBadRequest : Z := 400.

(** Go's [error] interface: the one method the handlers use. *)
Class GoError (error : Type) : Type := Error : error → string.

(** ** The handlers and their collaborators *)
Section Handlers.

(** Types owned by collaborators: errors, [context.Context], the raw
    request body, the object rendered for an error, the update payload
    ([model.UpdateStorageRequest]) and the domain state behind the action
    layer. *)
Context {error RequestCtx Body ErrBody UpdateStorageRequest St : Type}.
Context `{!GoError error}.

(** *** gin *)

Record GinContext : Type := mkGinContext {
  Request_Body : Body;
  Request_Context : RequestCtx;
  Params : list (string * string);
}.

(** [ctx.Param(key)]: the value of the first path parameter named [key],
    the empty string when there is none. *)
Fixpoint ByName (ps : list (string * string)) (key : string) : string :=
  match ps with
  | [] => ""
  | (k, v) :: ps' => if decide (k = key) then v else ByName ps' key
  end.

Definition Param (ctx : GinContext) (key : string) : string :=
  ByName (Params ctx) key.

(** [binding.JSON] decoding the request body into a value of type [T]. *)
Class JSONBinding (T : Type) : Type := bindJSON : Body → error + T.

Definition ShouldBindWith {T} `{!JSONBinding T} (ctx : GinContext)
  : error + T :=
  bindJSON (Request_Body ctx).

(** What a handler hands to the JSON renderer. *)
Inductive Obj : Type :=
  | ObjError (e : ErrBody)
  | ObjImport (r : ImportResponse)
  | ObjStorages (l : slice Storage).

Inductive Rendered : Type :=
  | NoBody
  | JSONBody (o : Obj).

Record ResponseWriter : Type := mkResponseWriter {
  status : Z;
  body : Rendered;
  aborted : bool;
}.

(** A fresh gin response: status 200, nothing written, not aborted. *)
Definition fresh_writer : ResponseWriter :=
  {| status := StatusOK; body := NoBody; aborted := false |}.

(** *** The action layer *)

(** [server.StorageActions]: every action runs against the domain state
    and leaves a new one; a Go [error] result is [None] for [nil]. *)
Record StorageActions : Type := mkStorageActions {
  CreateStorage : RequestCtx → Storage → St → option error * St;
  GetStorages : RequestCtx → St → (slice Storage * option error) * St;
  UpdateStorage :
    RequestCtx → string → UpdateStorageRequest → St → option error * St;
  DeleteStorage : RequestCtx → string → St → option error * St;
}.

(** One entry of the trace of action calls. *)
Inductive Call : Type :=
  | CallCreateStorage (rc : RequestCtx) (s : Storage)
  | CallGetStorages (rc : RequestCtx)
  | CallUpdateStorage (rc : RequestCtx) (name : string)
      (req : UpdateStorageRequest)
  | CallDeleteStorage (rc : RequestCtx) (name : string).

(** *** TranslateValidate *)

Record TranslateValidate : Type := mkTranslateValidate {
  (** the structured validation error built for a binding error *)
  validation_error : GinContext → error → ErrBody;
  (** [HandleError(err)]: the status and body for a domain error *)
  HandleError : error → Z * ErrBody;
}.

(** Modelled from the spec: [TranslateValidate.BadRequest(ctx, err)]
    (pkg/router, its source is not in src/).  The spec says that a body
    failing to parse or validate always yields 400 with a structured
    validation error. *)
Definition BadRequest (tv : TranslateValidate) (ctx : GinContext)
  (err : error) : Z * ErrBody :=
  (StatusBadRequest, validation_error tv ctx err).

Record storageHandlers : Type := mkStorageHandlers {
  tv : TranslateValidate;
  acts : StorageActions;
}.

(** *** The world a handler runs in *)

Record World : Type := mkWorld {
  writer : ResponseWriter;
  domain : St;
  calls : list Call;
  warnings : list error;
}.

Definition Handler (A : Type) : Type := World → A * World.

Global Instance Handler_ret : MRet Handler := λ A a w, (a, w).
Global Instance Handler_bind : MBind Handler :=
  λ A B f m w, let '(a, w') := m w in f a w'.

Definition set_writer (rw : ResponseWriter) : Handler unit :=
  λ w, (tt, {| writer := rw; domain := domain w;
               calls := calls w; warnings := warnings w |}).

Definition get_writer : Handler ResponseWriter := λ w, (writer w, w).

(** [ctx.Status(code)] *)
Definition Status (code : Z) : Handler unit :=
  rw ← get_writer;
  set_writer {| status := code; body := body rw; aborted := aborted rw |}.

(** [ctx.JSON(code, obj)] *)
Definition JSON (code : Z) (obj : Obj) : Handler unit :=
  rw ← get_writer;
  set_writer {| status := code; body := JSONBody obj; aborted := aborted rw |}.

(** [ctx.Abort()] *)
Definition Abort : Handler unit :=
  rw ← get_writer;
  set_writer {| status := status rw; body := body rw; aborted := true |}.

(** [ctx.AbortWithStatusJSON(code, obj)]: [Abort] then [JSON]; it is
    called with the pair a [TranslateValidate] method returns. *)
Definition AbortWithStatusJSON (r : Z * ErrBody) : Handler unit :=
  _ ← Abort;
  JSON (fst r) (ObjError (snd r)).

(** [logrus.Warn(err)] *)
Definition logrus_Warn (err : error) : Handler unit :=
  λ w, (tt, {| writer := writer w; domain := domain w;
               calls := calls w; warnings := warnings w ++ [err] |}).

(** Running an action: the call is appended to the trace and the domain
    state is replaced by the one the action leaves. *)
Definition invoke {A} (c : Call) (action : St → A * St) : Handler A :=
  λ w, let '(a, d) := action (domain w) in
       (a, {| writer := writer w; domain := d;
              calls := calls w ++ [c]; warnings := warnings w |}).

(** [for _, x := range l { acc = body(x, acc) }] *)
Fixpoint range {A R} (l : list A) (body : A → R → Handler R) (acc : R)
  : Handler R :=
  match l with
  | [] => mret acc
  | x :: l' => acc' ← body x acc; range l' body acc'
  end.

(** *** The handlers *)

Context `{!JSONBinding Storage, !JSONBinding (slice string),
          !JSONBinding UpdateStorageRequest}.

Definition createStorageHandler (sh : storageHandlers) (ctx : GinContext)
  : Handler unit :=
  match ShouldBindWith (T:=Storage) ctx with
  | inl err => AbortWithStatusJSON (BadRequest (tv sh) ctx err)
  | inr req =>
      err ← invoke (CallCreateStorage (Request_Context ctx) req)
                   (CreateStorage (acts sh) (Request_Context ctx) req);
      match err with
      | Some err => AbortWithStatusJSON (HandleError (tv sh) err)
      | None => Status StatusCreated
      end
  end.

(** The body of the import loop: one name, the response built so far. *)
Definition import_one (sh : storageHandlers) (ctx : GinContext)
  (r : string) (resp : ImportResponse) : Handler ImportResponse :=
  let store := {| Name := r; Size := 100 |} in
  err ← invoke (CallCreateStorage (Request_Context ctx) store)
               (CreateStorage (acts sh) (Request_Context ctx) store);
  match err with
  | Some err =>
      _ ← logrus_Warn err;
      mret (ImportFailed resp r "" (Error err))
  | None => mret (ImportSuccessful resp r "")
  end.

Definition importStoragesHandler (sh : storageHandlers) (ctx : GinContext)
  : Handler unit :=
  match ShouldBindWith (T:=slice string) ctx with
  | inl err => AbortWithStatusJSON (BadRequest (tv sh) ctx err)
  | inr req =>
      let resp := {| Imported := make_slice []; Failed := make_slice [] |} in
      resp ← range (elems req) (import_one sh ctx) resp;
      JSON StatusAccepted (ObjImport resp)
  end.

Definition getStoragesHandler (sh : storageHandlers) (ctx : GinContext)
  : Handler unit :=
  '(storages, err) ← invoke (CallGetStorages (Request_Context ctx))
                            (GetStorages (acts sh) (Request_Context ctx));
  match err with
  | Some err => AbortWithStatusJSON (HandleError (tv sh) err)
  | None => JSON StatusOK (ObjStorages storages)
  end.

Definition updateStorageHandler (sh : storageHandlers) (ctx : GinContext)
  : Handler unit :=
  match ShouldBindWith (T:=UpdateStorageRequest) ctx with
  | inl err => AbortWithStatusJSON (BadRequest (tv sh) ctx err)
  | inr req =>
      err ← invoke (CallUpdateStorage (Request_Context ctx) (Param ctx "name") req)
                   (UpdateStorage (acts sh) (Request_Context ctx)
                                  (Param ctx "name") req);
      match err with
      | Some err => AbortWithStatusJSON (HandleError (tv sh) err)
      | None => Status StatusAccepted
      end
  end.

Definition deleteStorageHandler (sh : storageHandlers) (ctx : GinContext)
  : Handler unit :=
  err ← invoke (CallDeleteStorage (Request_Context ctx) (Param ctx "name"))
               (DeleteStorage (acts sh) (Request_Context ctx) (Param ctx "name"));
  match err with
  | Some err => AbortWithStatusJSON (HandleError (tv sh) err)
  | None => Status StatusAccepted
  end.

(** A request served from a fresh response writer, empty traces and the
    domain state [d]. *)
Definition serve (h : Handler unit) (d : St) : World :=
  snd (h {| writer := fresh_writer; domain := d; calls := []; warnings := [] |}).

End Handlers.

(** ** Vocabulary of the statements *)
Section Vocabulary.

Context {error RequestCtx Body ErrBody UpdateStorageRequest St : Type}.
Context `{!GoError error}.

(** The record the import loop builds for a name. *)
Definition import_store (r : string) : Storage := {| Name := r; Size := 100 |}.

(** The results of the create action on the records of [names], called one
    after the other from the domain state [d], each call running in the
    state its predecessor left. *)
Fixpoint create_outcomes (a : StorageActions (error:=error) (St:=St)
                                (RequestCtx:=RequestCtx)
                                (UpdateStorageRequest:=UpdateStorageRequest))
  (rc : RequestCtx) (names : list string) (d : St) : list (option error) :=
  match names with
  | [] => []
  | r :: names' =>
      let '(e, d') := CreateStorage a rc (import_store r) d in
      e :: create_outcomes a rc names' d'
  end.

(** The domain state these calls leave. *)
Fixpoint create_all (a : StorageActions (error:=error) (St:=St)
                           (RequestCtx:=RequestCtx)
                           (UpdateStorageRequest:=UpdateStorageRequest))
  (rc : RequestCtx) (names : list string) (d : St) : St :=
  match names with
  | [] => d
  | r :: names' => create_all a rc names' (CreateStorage a rc (import_store r) d).2
  end.

(** The entry recorded for a name whose create succeeded, or failed. *)
Definition success_entry (r : string) : ImportResult :=
  {| ir_name := r; ir_secondary := ""; ir_message := None |}.

Definition failure_entry (r : string) (e : error) : ImportResult :=
  {| ir_name := r; ir_secondary := ""; ir_message := Some (Error e) |}.

(** The entries of the names whose outcome is a success, in order. *)
Fixpoint imported_entries (names : list string) (outs : list (option error))
  : list ImportResult :=
  match names, outs with
  | r :: names', None :: outs' => success_entry r :: imported_entries names' outs'
  | _ :: names', Some _ :: outs' => imported_entries names' outs'
  | _, _ => []
  end.

(** The entries of the names whose outcome is a failure, in order. *)
Fixpoint failed_entries (names : list string) (outs : list (option error))
  : list ImportResult :=
  match names, outs with
  | r :: names', Some e :: outs' => failure_entry r e :: failed_entries names' outs'
  | _ :: names', None :: outs' => failed_entries names' outs'
  | _, _ => []
  end.

(** Whether an outcome is a success. *)
Definition succeeded (o : option error) : bool :=
  match o with None => true | Some _ => false end.

(** The errors among the outcomes, in order. *)
Definition failures (outs : list (option error)) : list error := omap id outs.

(** The positions of [names] whose mark in [oks] is [b], in order. *)
Fixpoint select (b : bool) (names : list string) (oks : list bool)
  : list string :=
  match names, oks with
  | r :: names', o :: oks' =>
      if Bool.eqb o b then r :: select b names' oks' else select b names' oks'
  | _, _ => []
  end.

(** The request [ctx] with its body replaced by [b]: same path, same
    request context. *)
Definition with_body (ctx : GinContext (RequestCtx:=RequestCtx) (Body:=Body))
  (b : Body) : GinContext :=
  {| Request_Body := b; Request_Context := Request_Context ctx;
     Params := Params ctx |}.

(** The storage name an update or delete call is aimed at. *)
Definition call_target (c : Call (RequestCtx:=RequestCtx)
                                 (UpdateStorageRequest:=UpdateStorageRequest))
  : option string :=
  match c with
  | CallUpdateStorage _ name _ => Some name
  | CallDeleteStorage _ name => Some name
  | _ => None
  end.

(** The response an aborting handler leaves for a status/body pair. *)
Definition error_response (r : Z * ErrBody)
  : ResponseWriter (ErrBody:=ErrBody) :=
  {| status := r.1; body := JSONBody (ObjError r.2); aborted := true |}.

(** A bare status: nothing rendered, the chain not aborted. *)
Definition empty_response (code : Z) : ResponseWriter (ErrBody:=ErrBody) :=
  {| status := code; body := NoBody; aborted := false |}.

(** A rendered object. *)
Definition json_response (code : Z) (o : Obj (ErrBody:=ErrBody))
  : ResponseWriter :=
  {| status := code; body := JSONBody o; aborted := false |}.

End Vocabulary.

(** ** Route registration (SetupStorageHandlers) *)
Section Routing.

Context {error RequestCtx Body ErrBody UpdateStorageRequest St : Type}.
Context `{!GoError error}.
Context `{!JSONBinding (error:=error) (Body:=Body) Storage,
          !JSONBinding (error:=error) (Body:=Body) (slice string),
          !JSONBinding (error:=error) (Body:=Body) UpdateStorageRequest}.

(** [gin.HandlerFunc] *)
Definition HandlerFunc : Type :=
  GinContext (RequestCtx:=RequestCtx) (Body:=Body)
  → Handler (error:=error) (RequestCtx:=RequestCtx) (ErrBody:=ErrBody)
            (UpdateStorageRequest:=UpdateStorageRequest) (St:=St) unit.

(** [gin.RouterGroup]: the handlers every route of the group starts with,
    and the path the routes of the group are relative to. *)
Record RouterGroup : Type := mkRouterGroup {
  Handlers : list HandlerFunc;
  basePath : string;
}.

(** One call of the engine's [addRoute]: what a registration hands over. *)
Record Registration : Type := mkRegistration {
  reg_method : string;
  reg_path : string;
  reg_chain : list HandlerFunc;
}.

(** [Router] (declared elsewhere in pkg/router): the two fields
    [SetupStorageHandlers] reads, [r.engine] and [r.tv]. *)
Record Router : Type := mkRouter {
  Router_engine : RouterGroup;
  Router_tv : TranslateValidate (error:=error) (RequestCtx:=RequestCtx)
                (Body:=Body) (ErrBody:=ErrBody);
}.

(** gin's [joinPaths], which computes the absolute path of a group or of a
    route from the group's base path and a relative path. *)
Variable joinPaths : string → string → string.

(** The middleware [httputil.RequireAdminRole(errors.ErrAdminRequired)]. *)
Variable RequireAdminRole : HandlerFunc.

(** [group.Group(relativePath, handlers...)] *)
Definition Group (g : RouterGroup) (relativePath : string)
  (handlers : list HandlerFunc) : RouterGroup :=
  {| Handlers := Handlers g ++ handlers;
     basePath := joinPaths (basePath g) relativePath |}.

(** [group.handle(method, relativePath, handler)]: the registration is
    appended to the table of the routes registered so far. *)
Definition handle (g : RouterGroup) (method relativePath : string)
  (h : HandlerFunc) (table : list Registration) : list Registration :=
  table ++ [{| reg_method := method;
               reg_path := joinPaths (basePath g) relativePath;
               reg_chain := Handlers g ++ [h] |}].

Definition POST (g : RouterGroup) := handle g "POST".
Definition GET (g : RouterGroup) := handle g "GET".
Definition PUT (g : RouterGroup) := handle g "PUT".
Definition DELETE (g : RouterGroup) := handle g "DELETE".

Definition SetupStorageHandlers (r : Router)
  (acts : StorageActions (error:=error) (RequestCtx:=RequestCtx)
            (UpdateStorageRequest:=UpdateStorageRequest) (St:=St))
  (table : list Registration) : list Registration :=
  let handlers := {| tv := Router_tv r; acts := acts |} in
  let group := Group (Router_engine r) "/storages" [RequireAdminRole] in
  let table := POST group "" (createStorageHandler handlers) table in
  let table := GET group "" (getStoragesHandler handlers) table in
  let table := PUT group "/:name" (updateStorageHandler handlers) table in
  let table := DELETE group "/:name" (deleteStorageHandler handlers) table in
  POST (Router_engine r) "/import/storages" (importStoragesHandler handlers) table.

(** How gin runs the chain of a route ([Context.Next]): the handlers one
    after the other, none of them once the context is aborted. *)
Fixpoint run_chain (hs : list HandlerFunc) (ctx : GinContext) : Handler unit :=
  match hs with
  | [] => mret tt
  | h :: hs' =>
      rw ← get_writer;
      if aborted rw then mret tt
      else _ ← h ctx; run_chain hs' ctx
  end.

(** The registrations [SetupStorageHandlers] adds to [table]. *)
Definition storage_routes (r : Router)
  (acts : StorageActions (error:=error) (RequestCtx:=RequestCtx)
            (UpdateStorageRequest:=UpdateStorageRequest) (St:=St))
  (table : list Registration) : list Registration :=
  drop (length table) (SetupStorageHandlers r acts table).

(** Whether the rendered body is an error object. *)
Definition is_error_body (b : Rendered (ErrBody:=ErrBody)) : bool :=
  match b with
  | JSONBody (ObjError _) => true
  | _ => false
  end.

(** The request with the same request context, another body and other path
    parameters. *)
Definition with_body_params
  (ctx : GinContext (RequestCtx:=RequestCtx) (Body:=Body)) (b : Body)
  (ps : list (string * string)) : GinContext :=
  {| Request_Body := b; Request_Context := Request_Context ctx; Params := ps |}.

End Routing.

(** ** A stand-in action layer

    An in-memory implementation of the collaborators, used to run the
    handlers on concrete requests: the domain state is the list of storages,
    bounded by a quota on the total size. *)
Module StandIn.

(** Errors are their messages. *)
Definition error : Type := string.
#[export] Instance error_GoError : GoError error := λ e, e.

Record Update : Type := mkUpdate {
  upd_name : string;
  upd_size : Z;
}.

(** Request bodies, by what they decode to. *)
Inductive Body : Type :=
  | StorageBody (s : Storage)
  | NamesBody (l : slice string)
  | UpdateBody (u : Update)
  | Garbage.

#[export] Instance bind_Storage : JSONBinding (error:=error) (Body:=Body) Storage :=
  λ b, match b with StorageBody s => inr s | _ => inl "invalid storage" end.
#[export] Instance bind_names : JSONBinding (error:=error) (Body:=Body) (slice string) :=
  λ b, match b with NamesBody l => inr l | _ => inl "invalid name list" end.
#[export] Instance bind_Update : JSONBinding (error:=error) (Body:=Body) Update :=
  λ b, match b with UpdateBody u => inr u | _ => inl "invalid update" end.

Definition used (d : list Storage) : Z := foldr (λ s n, Size s + n) 0 d.

Definition exists_named (name : string) (d : list Storage) : bool :=
  bool_decide (name ∈ Name <$> d).

Definition create (quota : Z) (_ : unit) (s : Storage) (d : list Storage)
  : option error * list Storage :=
  if exists_named (Name s) d then (Some "already exists", d)
  else if bool_decide (quota < used d + Size s) then (Some "quota exceeded", d)
  else (None, d ++ [s]).

Definition list_all (_ : unit) (d : list Storage)
  : (slice Storage * option error) * list Storage :=
  ((make_slice d, None), d).

Definition update (_ : unit) (name : string) (u : Update) (d : list Storage)
  : option error * list Storage :=
  if exists_named name d
  then (None, (λ s, if decide (Name s = name)
                    then {| Name := upd_name u; Size := upd_size u |}
                    else s) <$> d)
  else (Some "not found", d).

Definition delete (_ : unit) (name : string) (d : list Storage)
  : option error * list Storage :=
  if exists_named name d
  then (None, filter (λ s, Name s ≠ name) d)
  else (Some "not found", d).

Definition actions (quota : Z)
  : StorageActions (error:=error) (RequestCtx:=unit)
                   (UpdateStorageRequest:=Update) (St:=list Storage) :=
  {| CreateStorage := create quota; GetStorages := list_all;
     UpdateStorage := update; DeleteStorage := delete |}.

Definition translate
  : TranslateValidate (error:=error) (RequestCtx:=unit) (Body:=Body)
                      (ErrBody:=string) :=
  {| validation_error := λ _ err, String.append "validation failed: " err;
     HandleError := λ err,
       (if decide (err = "not found") then 404
        else if decide (err = "already exists") then 409
        else if decide (err = "quota exceeded") then 403
        else 500, err) |}.

Definition handlers (quota : Z) : storageHandlers :=
  {| tv := translate; acts := actions quota |}.

(** A request with body [b] on the path parameter [name]. *)
Definition request (b : Body) (name : string) : GinContext :=
  {| Request_Body := b; Request_Context := tt; Params := [("name", name)] |}.

(** The requests the handlers are run on below. *)
Definition vol1_vol2 : slice string := make_slice ["vol1"; "vol2"].
Definition import_vols : GinContext := request (NamesBody vol1_vol2) "".
Definition import_twice : GinContext :=
  request (NamesBody (make_slice ["a"; "a"])) "".
Definition import_nothing : GinContext := request (NamesBody (make_slice [])) "".
Definition import_garbage : GinContext := request Garbage "".
Definition create_a : GinContext :=
  request (StorageBody {| Name := "a"; Size := 5 |}) "".
Definition rename_a_to_b : GinContext :=
  request (UpdateBody {| upd_name := "b"; upd_size := 5 |}) "a".
Definition garbage_on_a : GinContext := request Garbage "a".

(** A router without handlers of its own, on the root path. *)
Definition join (base rel : string) : string :=
  if decide (rel = "") then base
  else if decide (base = "/") then rel
  else String.append base rel.

Definition router : Router (UpdateStorageRequest:=Update) (St:=list Storage) :=
  {| Router_engine := {| Handlers := []; basePath := "/" |};
     Router_tv := translate |}.

(** An admin check that turns every request away, and one that lets every
    request through. *)
Definition Middleware : Type :=
  HandlerFunc (error:=error) (RequestCtx:=unit) (Body:=Body) (ErrBody:=string)
              (UpdateStorageRequest:=Update) (St:=list Storage).
Definition deny_all : Middleware :=
  λ _, AbortWithStatusJSON (403, "admin required").
Definition allow_all : Middleware := λ _, mret tt.

Definition fresh_world (d : list Storage)
  : World (error:=error) (RequestCtx:=unit) (ErrBody:=string)
          (UpdateStorageRequest:=Update) :=
  {| writer := fresh_writer; domain := d; calls := []; warnings := [] |}.

Definition import_vol1 : GinContext :=
  request (NamesBody (make_slice ["vol1"])) "".
Definition import_vol2 : GinContext :=
  request (NamesBody (make_slice ["vol2"])) "".
Definition create_vol1 : GinContext :=
  request (StorageBody {| Name := "vol1"; Size := 100 |}) "".

(** A request to delete on a path without a name parameter. *)
Definition delete_unnamed : GinContext (RequestCtx:=unit) :=
  {| Request_Body := Garbage; Request_Context := tt; Params := [] |}.

(** Another translator: one status and one body for every error. *)
Definition translate_flat
  : TranslateValidate (error:=error) (RequestCtx:=unit) (Body:=Body)
                      (ErrBody:=string) :=
  {| validation_error := λ _ _, "invalid";
     HandleError := λ _, (500, "failed") |}.

End StandIn.

(** ** Properties of the handlers *)

(** Unfolds the monadic plumbing of a handler down to the world it returns. *)
Ltac run_handler :=
  unfold serve, createStorageHandler, importStoragesHandler,
    getStoragesHandler, updateStorageHandler, deleteStorageHandler,
    AbortWithStatusJSON, JSON, Status, Abort, get_writer, set_writer, invoke,
    logrus_Warn, error_response, empty_response, json_response, BadRequest;
  unfold mbind, mret, Handler_bind, Handler_ret; simpl.

Section Properties.

Context {error RequestCtx Body ErrBody UpdateStorageRequest St : Type}.
Context `{!GoError error}.
Context `{!JSONBinding (error:=error) (Body:=Body) Storage,
          !JSONBinding (error:=error) (Body:=Body) (slice string),
          !JSONBinding (error:=error) (Body:=Body) UpdateStorageRequest}.

Abbreviation handlers := (storageHandlers (error:=error) (RequestCtx:=RequestCtx)
  (Body:=Body) (ErrBody:=ErrBody) (UpdateStorageRequest:=UpdateStorageRequest)
  (St:=St)).
Abbreviation request := (GinContext (RequestCtx:=RequestCtx) (Body:=Body)).
Abbreviation world := (World (error:=error) (RequestCtx:=RequestCtx)
  (ErrBody:=ErrBody) (UpdateStorageRequest:=UpdateStorageRequest) (St:=St)).

Implicit Types (sh : handlers) (ctx : request) (d : St) (w : world).
Implicit Types (names : list string) (outs : list (option error)).

(** *** The outcome lists *)

Lemma create_outcomes_length sh ctx names d :
  length (create_outcomes (acts sh) (Request_Context ctx) names d)
  = length names.
Proof.
  revert d. induction names as [|r names IH]; intros d; simpl; [done|].
  destruct (CreateStorage _ _ _ d) as [e d']. simpl. by rewrite IH.
Qed.

Lemma entries_length names outs :
  length outs = length names →
  (length (imported_entries names outs) + length (failed_entries names outs))%nat
  = length names.
Proof.
  revert outs. induction names as [|r names IH]; intros [|[e|] outs] Hlen;
    simplify_eq/=; try done.
  - rewrite Nat.add_succ_r. f_equal. by apply IH.
  - f_equal. by apply IH.
Qed.

Lemma imported_entries_names names outs :
  length outs = length names →
  ir_name <$> imported_entries names outs
  = select true names (succeeded <$> outs).
Proof.
  revert outs. induction names as [|r names IH]; intros [|[e|] outs] Hlen;
    simplify_eq/=; try done.
  - by apply IH.
  - f_equal. by apply IH.
Qed.

Lemma failed_entries_names names outs :
  length outs = length names →
  ir_name <$> failed_entries names outs
  = select false names (succeeded <$> outs).
Proof.
  revert outs. induction names as [|r names IH]; intros [|[e|] outs] Hlen;
    simplify_eq/=; try done.
  - f_equal. by apply IH.
  - by apply IH.
Qed.

Lemma select_sublist b names (oks : list bool) :
  sublist (select b names oks) names.
Proof.
  revert oks. induction names as [|r names IH]; intros [|o oks]; simpl;
    try apply sublist_nil_l.
  destruct (Bool.eqb o b); [apply sublist_skip | apply sublist_cons]; apply IH.
Qed.

Lemma select_partition names (oks : list bool) :
  length oks = length names →
  select true names oks ++ select false names oks ≡ₚ names.
Proof.
  revert oks. induction names as [|r names IH]; intros [|o oks] Hlen;
    simplify_eq/=; try done.
  destruct o; simpl.
  - constructor. by apply IH.
  - rewrite <- Permutation_middle. constructor. by apply IH.
Qed.

Lemma entries_secondary names outs :
  Forall (λ x, ir_secondary x = "")
         (imported_entries names outs ++ failed_entries names outs).
Proof.
  apply Forall_app. split; revert outs;
    induction names as [|r names IH]; intros [|[e|] outs]; simpl;
    try constructor; try done; apply IH.
Qed.

(** *** The import loop *)

Lemma range_cons {A R} (x : A) (l : list A) (body : A → R → Handler R)
    (acc : R) w :
  range (x :: l) body acc w
  = let '(acc', w') := body x acc w in range l body acc' w'.
Proof. reflexivity. Qed.

(** One iteration: the create action is called on the record built for
    [r]; a failure is logged and recorded, a success is recorded. *)
Lemma import_one_run sh ctx r (resp : ImportResponse) w :
  import_one sh ctx r resp w
  = let '(e, d') := CreateStorage (acts sh) (Request_Context ctx)
                      {| Name := r; Size := 100 |} (domain w) in
    (match e with
     | Some err => ImportFailed resp r "" (Error err)
     | None => ImportSuccessful resp r ""
     end,
     {| writer := writer w; domain := d';
        calls := calls w ++ [CallCreateStorage (Request_Context ctx)
                               {| Name := r; Size := 100 |}];
        warnings := match e with
                    | Some err => warnings w ++ [err]
                    | None => warnings w
                    end |}).
Proof.
  unfold import_one, invoke, logrus_Warn, mbind, mret, Handler_bind,
    Handler_ret.
  by destruct (CreateStorage _ _ _ _) as [[e|] d'].
Qed.

(** One run of the loop over [names], from a response whose two slices
    are non-nil: the entries are appended in input order, every name is
    handed to the create action, and each failure is logged. *)
Lemma range_import_one sh ctx names :
  ∀ li lf w,
    range names (import_one sh ctx)
          {| Imported := make_slice li; Failed := make_slice lf |} w
    = let outs := create_outcomes (acts sh) (Request_Context ctx) names (domain w) in
      ({| Imported := make_slice (li ++ imported_entries names outs);
          Failed := make_slice (lf ++ failed_entries names outs) |},
       {| writer := writer w;
          domain := create_all (acts sh) (Request_Context ctx) names (domain w);
          calls := calls w ++ ((λ r, CallCreateStorage (Request_Context ctx)
                                       (import_store r)) <$> names);
          warnings := warnings w ++ failures outs |}).
Proof.
  induction names as [|r names IH]; intros li lf w.
  - destruct w. simpl. by rewrite !app_nil_r.
  - rewrite range_cons, import_one_run. simpl.
    fold (import_store r).
    destruct (CreateStorage (acts sh) (Request_Context ctx) (import_store r)
                (domain w)) as [[e|] d']; simpl.
    + unfold ImportFailed, append; simpl. rewrite IH; simpl.
      unfold failures; simpl. by rewrite <- !app_assoc.
    + unfold ImportSuccessful, append; simpl. rewrite IH; simpl.
      by rewrite <- !app_assoc.
Qed.

(** The world a well-formed import request leaves. *)
Lemma importStoragesHandler_bound sh ctx d req :
  ShouldBindWith (T:=slice string) ctx = inr req →
  serve (importStoragesHandler sh ctx) d
  = let outs := create_outcomes (acts sh) (Request_Context ctx) (elems req) d in
    {| writer := json_response StatusAccepted
         (ObjImport {| Imported := make_slice (imported_entries (elems req) outs);
                       Failed := make_slice (failed_entries (elems req) outs) |});
       domain := create_all (acts sh) (Request_Context ctx) (elems req) d;
       calls := (λ r, CallCreateStorage (Request_Context ctx) (import_store r))
                  <$> elems req;
       warnings := failures outs |}.
Proof.
  intros Hbind. unfold serve, importStoragesHandler. rewrite Hbind.
  unfold mbind, Handler_bind at 1. rewrite range_import_one.
  by run_handler.
Qed.

(** The world a malformed import request leaves. *)
Lemma importStoragesHandler_malformed sh ctx d err :
  ShouldBindWith (T:=slice string) ctx = inl err →
  serve (importStoragesHandler sh ctx) d
  = {| writer := error_response (BadRequest (tv sh) ctx err);
       domain := d; calls := []; warnings := [] |}.
Proof.
  intros Hbind. unfold serve, importStoragesHandler. rewrite Hbind.
  by run_handler.
Qed.

(** *** Create, list, update, delete *)

Lemma createStorageHandler_malformed sh ctx d err :
  ShouldBindWith (T:=Storage) ctx = inl err →
  serve (createStorageHandler sh ctx) d
  = {| writer := error_response (BadRequest (tv sh) ctx err);
       domain := d; calls := []; warnings := [] |}.
Proof.
  intros Hbind. unfold serve, createStorageHandler. rewrite Hbind.
  by run_handler.
Qed.

Lemma createStorageHandler_bound sh ctx d req :
  ShouldBindWith (T:=Storage) ctx = inr req →
  serve (createStorageHandler sh ctx) d
  = let r := CreateStorage (acts sh) (Request_Context ctx) req d in
    {| writer := match r.1 with
                 | Some e => error_response (HandleError (tv sh) e)
                 | None => empty_response StatusCreated
                 end;
       domain := r.2;
       calls := [CallCreateStorage (Request_Context ctx) req];
       warnings := [] |}.
Proof.
  intros Hbind. unfold serve, createStorageHandler. rewrite Hbind.
  run_handler. by destruct (CreateStorage _ _ _ _) as [[e|] d'].
Qed.

Lemma updateStorageHandler_malformed sh ctx d err :
  ShouldBindWith (T:=UpdateStorageRequest) ctx = inl err →
  serve (updateStorageHandler sh ctx) d
  = {| writer := error_response (BadRequest (tv sh) ctx err);
       domain := d; calls := []; warnings := [] |}.
Proof.
  intros Hbind. unfold serve, updateStorageHandler. rewrite Hbind.
  by run_handler.
Qed.

Lemma updateStorageHandler_bound sh ctx d req :
  ShouldBindWith (T:=UpdateStorageRequest) ctx = inr req →
  serve (updateStorageHandler sh ctx) d
  = let r := UpdateStorage (acts sh) (Request_Context ctx)
               (Param ctx "name") req d in
    {| writer := match r.1 with
                 | Some e => error_response (HandleError (tv sh) e)
                 | None => empty_response StatusAccepted
                 end;
       domain := r.2;
       calls := [CallUpdateStorage (Request_Context ctx) (Param ctx "name") req];
       warnings := [] |}.
Proof.
  intros Hbind. unfold serve, updateStorageHandler. rewrite Hbind.
  run_handler. by destruct (UpdateStorage _ _ _ _ _) as [[e|] d'].
Qed.

Lemma deleteStorageHandler_run sh ctx d :
  serve (deleteStorageHandler sh ctx) d
  = let r := DeleteStorage (acts sh) (Request_Context ctx)
               (Param ctx "name") d in
    {| writer := match r.1 with
                 | Some e => error_response (HandleError (tv sh) e)
                 | None => empty_response StatusAccepted
                 end;
       domain := r.2;
       calls := [CallDeleteStorage (Request_Context ctx) (Param ctx "name")];
       warnings := [] |}.
Proof.
  run_handler. by destruct (DeleteStorage _ _ _ _) as [[e|] d'].
Qed.

Lemma getStoragesHandler_run sh ctx d :
  serve (getStoragesHandler sh ctx) d
  = let r := GetStorages (acts sh) (Request_Context ctx) d in
    {| writer := match r.1.2 with
                 | Some e => error_response (HandleError (tv sh) e)
                 | None => json_response StatusOK (ObjStorages r.1.1)
                 end;
       domain := r.2;
       calls := [CallGetStorages (Request_Context ctx)];
       warnings := [] |}.
Proof.
  run_handler. by destruct (GetStorages _ _ _) as [[storages [e|]] d'].
Qed.

Lemma Param_with_body ctx (b : Body) key :
  Param (with_body ctx b) key = Param ctx key.
Proof. reflexivity. Qed.

(** *** The claims *)

(** C1 (amended).  A bulk-import request whose body binds to a list of
    names is answered 202 with the aggregated [ImportResponse], whatever
    the outcome of each item; a request whose body fails to bind is
    answered with the validation error of [BadRequest], and the create
    action is not invoked. *)
Theorem importStoragesHandler_response sh ctx d :
  match ShouldBindWith (T:=slice string) ctx with
  | inr req =>
      writer (serve (importStoragesHandler sh ctx) d)
      = json_response StatusAccepted
          (ObjImport
             {| Imported := make_slice
                  (imported_entries (elems req)
                     (create_outcomes (acts sh) (Request_Context ctx) (elems req) d));
                Failed := make_slice
                  (failed_entries (elems req)
                     (create_outcomes (acts sh) (Request_Context ctx) (elems req) d)) |})
  | inl err =>
      serve (importStoragesHandler sh ctx) d
      = {| writer := error_response (BadRequest (tv sh) ctx err);
           domain := d; calls := []; warnings := [] |}
  end.
Proof.
  destruct (ShouldBindWith ctx) as [err|req] eqn:Hbind.
  - by apply importStoragesHandler_malformed.
  - by rewrite (importStoragesHandler_bound _ _ _ _ Hbind).
Qed.

(** C2.  For an import list of length N, the lengths of the imported and
    failed lists of the response sum to N, and every position of the input
    is recorded in exactly one of the two lists: the names of the two lists
    are the input split by a mark per position (so together a permutation
    of the input). *)
Theorem importStoragesHandler_partition sh ctx d req :
  ShouldBindWith (T:=slice string) ctx = inr req →
  ∃ resp,
    body (writer (serve (importStoragesHandler sh ctx) d))
    = JSONBody (ObjImport resp)
    ∧ (len (Imported resp) + len (Failed resp))%nat = len req
    ∧ (ir_name <$> elems (Imported resp)) ++ (ir_name <$> elems (Failed resp))
      ≡ₚ elems req
    ∧ ∃ oks : list bool,
        length oks = len req
        ∧ ir_name <$> elems (Imported resp) = select true (elems req) oks
        ∧ ir_name <$> elems (Failed resp) = select false (elems req) oks.
Proof.
  intros Hbind. rewrite (importStoragesHandler_bound _ _ _ _ Hbind). simpl.
  eexists. split; [reflexivity|]. unfold len. simpl.
  pose proof (create_outcomes_length sh ctx (elems req) d) as Hlen.
  set (outs := create_outcomes _ _ _ _) in *.
  rewrite imported_entries_names, failed_entries_names by done.
  split; [by apply entries_length|].
  split; [apply select_partition; by rewrite length_fmap|].
  exists (succeeded <$> outs). by rewrite length_fmap.
Qed.

(** C3.  For every name of the import list the handler builds the record
    with that name and size 100 and invokes the create action with it; a
    failure records (name, error message) in the failed list, a success
    records the name in the imported list.  In particular, on
    ["vol1","vol2"] with an action that accepts "vol1" and then rejects
    "vol2" with "quota exceeded", the response is 202 with vol1 imported
    and (vol2, "quota exceeded") failed. *)
Theorem importStoragesHandler_items sh ctx d :
  (∀ req,
     ShouldBindWith (T:=slice string) ctx = inr req →
     calls (serve (importStoragesHandler sh ctx) d)
     = (λ r, CallCreateStorage (Request_Context ctx) {| Name := r; Size := 100 |})
         <$> elems req
     ∧ ∃ resp,
         writer (serve (importStoragesHandler sh ctx) d)
         = json_response StatusAccepted (ObjImport resp)
         ∧ elems (Imported resp)
           = imported_entries (elems req)
               (create_outcomes (acts sh) (Request_Context ctx) (elems req) d)
         ∧ elems (Failed resp)
           = failed_entries (elems req)
               (create_outcomes (acts sh) (Request_Context ctx) (elems req) d))
  ∧ (∀ d1 d2 e,
       ShouldBindWith (T:=slice string) ctx = inr (make_slice ["vol1"; "vol2"]) →
       CreateStorage (acts sh) (Request_Context ctx)
         {| Name := "vol1"; Size := 100 |} d = (None, d1) →
       CreateStorage (acts sh) (Request_Context ctx)
         {| Name := "vol2"; Size := 100 |} d1 = (Some e, d2) →
       Error e = "quota exceeded" →
       writer (serve (importStoragesHandler sh ctx) d)
       = json_response StatusAccepted
           (ObjImport
              {| Imported := make_slice
                   [{| ir_name := "vol1"; ir_secondary := ""; ir_message := None |}];
                 Failed := make_slice
                   [{| ir_name := "vol2"; ir_secondary := "";
                       ir_message := Some "quota exceeded" |}] |})).
Proof.
  split.
  - intros req Hbind. rewrite (importStoragesHandler_bound _ _ _ _ Hbind).
    simpl. split; [done|]. by eexists.
  - intros d1 d2 e Hbind H1 H2 He.
    rewrite (importStoragesHandler_bound _ _ _ _ Hbind). simpl.
    unfold import_store. rewrite H1, H2. simpl.
    unfold failure_entry. by rewrite He.
Qed.

(** C4.  The import handler calls the create action once per item, in the
    order of the input list, each call running in the domain state left by
    the one before; a failing item does not stop the items after it; the
    entries of the imported and of the failed list follow the order of the
    input list. *)
Theorem importStoragesHandler_order sh ctx d req :
  ShouldBindWith (T:=slice string) ctx = inr req →
  calls (serve (importStoragesHandler sh ctx) d)
  = (λ r, CallCreateStorage (Request_Context ctx) (import_store r)) <$> elems req
  ∧ domain (serve (importStoragesHandler sh ctx) d)
    = create_all (acts sh) (Request_Context ctx) (elems req) d
  ∧ warnings (serve (importStoragesHandler sh ctx) d)
    = failures (create_outcomes (acts sh) (Request_Context ctx) (elems req) d)
  ∧ ∃ resp,
      body (writer (serve (importStoragesHandler sh ctx) d))
      = JSONBody (ObjImport resp)
      ∧ sublist (ir_name <$> elems (Imported resp)) (elems req)
      ∧ sublist (ir_name <$> elems (Failed resp)) (elems req).
Proof.
  intros Hbind. rewrite (importStoragesHandler_bound _ _ _ _ Hbind). simpl.
  do 3 (split; [done|]). eexists. split; [reflexivity|]. simpl.
  pose proof (create_outcomes_length sh ctx (elems req) d) as Hlen.
  rewrite imported_entries_names, failed_entries_names by done.
  split; apply select_sublist.
Qed.

(** C5.  A create or update request whose body fails to bind is answered
    400 with the structured validation error, and the action layer is not
    invoked (the domain state and the call trace are untouched). *)
Theorem malformed_body_rejected sh ctx d :
  (∀ err,
     ShouldBindWith (T:=Storage) ctx = inl err →
     serve (createStorageHandler sh ctx) d
     = {| writer := {| status := 400;
                       body := JSONBody (ObjError (validation_error (tv sh) ctx err));
                       aborted := true |};
          domain := d; calls := []; warnings := [] |})
  ∧ (∀ err,
       ShouldBindWith (T:=UpdateStorageRequest) ctx = inl err →
       serve (updateStorageHandler sh ctx) d
       = {| writer := {| status := 400;
                         body := JSONBody (ObjError (validation_error (tv sh) ctx err));
                         aborted := true |};
            domain := d; calls := []; warnings := [] |}).
Proof.
  split; intros err Hbind.
  - by rewrite (createStorageHandler_malformed _ _ _ _ Hbind).
  - by rewrite (updateStorageHandler_malformed _ _ _ _ Hbind).
Qed.

(** C6.  On a well-formed create request the create action is invoked
    exactly once, with the parsed record; when it succeeds the response is
    201 with an empty body, when it fails the response is the status and
    body [HandleError] gives for the error. *)
Theorem createStorageHandler_created sh ctx d req :
  ShouldBindWith (T:=Storage) ctx = inr req →
  calls (serve (createStorageHandler sh ctx) d)
  = [CallCreateStorage (Request_Context ctx) req]
  ∧ writer (serve (createStorageHandler sh ctx) d)
    = match (CreateStorage (acts sh) (Request_Context ctx) req d).1 with
      | None => {| status := 201; body := NoBody; aborted := false |}
      | Some e => error_response (HandleError (tv sh) e)
      end.
Proof.
  intros Hbind. rewrite (createStorageHandler_bound _ _ _ _ Hbind). simpl.
  split; [done|]. by destruct (CreateStorage _ _ _ _).1.
Qed.

(** C7.  The name handed to the update and to the delete action is the
    path parameter "name", whatever the body of the request; on success
    both handlers answer 202 with an empty body, on failure the status and
    body [HandleError] gives for the error. *)
Theorem update_delete_target_path sh ctx d :
  (∀ (b : Body) c,
     c ∈ calls (serve (updateStorageHandler sh (with_body ctx b)) d) →
     call_target c = Some (Param ctx "name"))
  ∧ (∀ (b : Body) c,
       c ∈ calls (serve (deleteStorageHandler sh (with_body ctx b)) d) →
       call_target c = Some (Param ctx "name"))
  ∧ match ShouldBindWith (T:=UpdateStorageRequest) ctx with
    | inl _ => calls (serve (updateStorageHandler sh ctx) d) = []
    | inr req =>
        calls (serve (updateStorageHandler sh ctx) d)
        = [CallUpdateStorage (Request_Context ctx) (Param ctx "name") req]
        ∧ writer (serve (updateStorageHandler sh ctx) d)
          = match (UpdateStorage (acts sh) (Request_Context ctx)
                     (Param ctx "name") req d).1 with
            | None => {| status := 202; body := NoBody; aborted := false |}
            | Some e => error_response (HandleError (tv sh) e)
            end
    end
  ∧ calls (serve (deleteStorageHandler sh ctx) d)
    = [CallDeleteStorage (Request_Context ctx) (Param ctx "name")]
  ∧ writer (serve (deleteStorageHandler sh ctx) d)
    = match (DeleteStorage (acts sh) (Request_Context ctx)
               (Param ctx "name") d).1 with
      | None => {| status := 202; body := NoBody; aborted := false |}
      | Some e => error_response (HandleError (tv sh) e)
      end.
Proof.
  repeat split.
  - intros b c.
    destruct (ShouldBindWith (T:=UpdateStorageRequest) (with_body ctx b))
      as [err|req] eqn:Hbind.
    + rewrite (updateStorageHandler_malformed _ _ _ _ Hbind). simpl.
      by intros ?%elem_of_nil.
    + rewrite (updateStorageHandler_bound _ _ _ _ Hbind). simpl.
      rewrite Param_with_body. by intros ->%list_elem_of_singleton.
  - intros b c. rewrite deleteStorageHandler_run. simpl.
    rewrite Param_with_body. by intros ->%list_elem_of_singleton.
  - destruct (ShouldBindWith ctx) as [err|req] eqn:Hbind.
    + by rewrite (updateStorageHandler_malformed _ _ _ _ Hbind).
    + rewrite (updateStorageHandler_bound _ _ _ _ Hbind). simpl.
      split; [done|]. by destruct (UpdateStorage _ _ _ _ _).1.
  - by rewrite deleteStorageHandler_run.
  - rewrite deleteStorageHandler_run. simpl.
    by destruct (DeleteStorage _ _ _ _).1.
Qed.

(** C8.  The list handler invokes the list action once, with the request
    context only; when the action succeeds the response is 200 with the
    sequence of storages the action returned, unchanged; when it fails the
    response is the status and body [HandleError] gives for the error. *)
Theorem getStoragesHandler_lists sh ctx d :
  calls (serve (getStoragesHandler sh ctx) d)
  = [CallGetStorages (Request_Context ctx)]
  ∧ writer (serve (getStoragesHandler sh ctx) d)
    = match (GetStorages (acts sh) (Request_Context ctx) d).1.2 with
      | None =>
          {| status := 200;
             body := JSONBody (ObjStorages
                       (GetStorages (acts sh) (Request_Context ctx) d).1.1);
             aborted := false |}
      | Some e => error_response (HandleError (tv sh) e)
      end.
Proof.
  rewrite getStoragesHandler_run. simpl. split; [done|].
  by destruct (GetStorages _ _ _).1.2.
Qed.

(** C9.  When the update or the delete action fails, the world the
    handler leaves is the error response and nothing else: the domain
    state is the one the single action call returned (the handler writes
    none of its own), no other action is called and nothing is logged. *)
Theorem failed_update_delete_no_write sh ctx d :
  (∀ req e,
     ShouldBindWith (T:=UpdateStorageRequest) ctx = inr req →
     (UpdateStorage (acts sh) (Request_Context ctx) (Param ctx "name") req d).1
     = Some e →
     serve (updateStorageHandler sh ctx) d
     = {| writer := error_response (HandleError (tv sh) e);
          domain := (UpdateStorage (acts sh) (Request_Context ctx)
                       (Param ctx "name") req d).2;
          calls := [CallUpdateStorage (Request_Context ctx) (Param ctx "name") req];
          warnings := [] |})
  ∧ (∀ e,
       (DeleteStorage (acts sh) (Request_Context ctx) (Param ctx "name") d).1
       = Some e →
       serve (deleteStorageHandler sh ctx) d
       = {| writer := error_response (HandleError (tv sh) e);
            domain := (DeleteStorage (acts sh) (Request_Context ctx)
                         (Param ctx "name") d).2;
            calls := [CallDeleteStorage (Request_Context ctx) (Param ctx "name")];
            warnings := [] |}).
Proof.
  split.
  - intros req e Hbind Hfail.
    rewrite (updateStorageHandler_bound _ _ _ _ Hbind). simpl.
    by rewrite Hfail.
  - intros e Hfail. rewrite deleteStorageHandler_run. simpl.
    by rewrite Hfail.
Qed.

(** C10.  On an empty import list the response is 202 with both lists
    present (non-nil) and empty, and the create action is not invoked; on
    every import list both lists are present and the secondary field of
    every recorded entry is the empty string. *)
Theorem importStoragesHandler_empty sh ctx d req :
  ShouldBindWith (T:=slice string) ctx = inr req →
  (elems req = [] →
   serve (importStoragesHandler sh ctx) d
   = {| writer := {| status := 202;
                     body := JSONBody (ObjImport {| Imported := make_slice [];
                                                    Failed := make_slice [] |});
                     aborted := false |};
        domain := d; calls := []; warnings := [] |})
  ∧ ∃ resp,
      body (writer (serve (importStoragesHandler sh ctx) d))
      = JSONBody (ObjImport resp)
      ∧ is_nil (Imported resp) = false
      ∧ is_nil (Failed resp) = false
      ∧ Forall (λ x, ir_secondary x = "")
               (elems (Imported resp) ++ elems (Failed resp)).
Proof.
  intros Hbind. rewrite (importStoragesHandler_bound _ _ _ _ Hbind). simpl.
  split.
  - by intros ->.
  - eexists. split; [reflexivity|]. simpl. do 2 (split; [done|]).
    apply entries_secondary.
Qed.

End Properties.

(** ** Further properties: composition, independence, routes *)
Section MoreProperties.

Context {error RequestCtx Body ErrBody UpdateStorageRequest St : Type}.
Context `{!GoError error}.
Context `{!JSONBinding (error:=error) (Body:=Body) Storage,
          !JSONBinding (error:=error) (Body:=Body) (slice string),
          !JSONBinding (error:=error) (Body:=Body) UpdateStorageRequest}.

Abbreviation handlers' := (storageHandlers (error:=error) (RequestCtx:=RequestCtx)
  (Body:=Body) (ErrBody:=ErrBody) (UpdateStorageRequest:=UpdateStorageRequest)
  (St:=St)).
Abbreviation request' := (GinContext (RequestCtx:=RequestCtx) (Body:=Body)).
Abbreviation world' := (World (error:=error) (RequestCtx:=RequestCtx)
  (ErrBody:=ErrBody) (UpdateStorageRequest:=UpdateStorageRequest) (St:=St)).
Abbreviation actions' := (StorageActions (error:=error) (RequestCtx:=RequestCtx)
  (UpdateStorageRequest:=UpdateStorageRequest) (St:=St)).
Abbreviation handler_func := (HandlerFunc (error:=error) (RequestCtx:=RequestCtx)
  (Body:=Body) (ErrBody:=ErrBody) (UpdateStorageRequest:=UpdateStorageRequest)
  (St:=St)).

Implicit Types (sh : handlers') (ctx : request') (d : St) (w : world').
Implicit Types (a : actions') (rc : RequestCtx).
Implicit Types (names : list string) (outs : list (option error)).

(** *** Lists of outcomes over a concatenation *)

Lemma create_all_app a rc names1 names2 d :
  create_all a rc (names1 ++ names2) d
  = create_all a rc names2 (create_all a rc names1 d).
Proof.
  revert d. induction names1 as [|r names1 IH]; intros d; simpl; [done|].
  by rewrite IH.
Qed.

Lemma create_outcomes_app a rc names1 names2 d :
  create_outcomes a rc (names1 ++ names2) d
  = create_outcomes a rc names1 d
    ++ create_outcomes a rc names2 (create_all a rc names1 d).
Proof.
  revert d. induction names1 as [|r names1 IH]; intros d; simpl; [done|].
  destruct (CreateStorage a rc (import_store r) d) as [e d']. simpl.
  by rewrite IH.
Qed.

Lemma create_outcomes_length' a rc names d :
  length (create_outcomes a rc names d) = length names.
Proof.
  revert d. induction names as [|r names IH]; intros d; simpl; [done|].
  destruct (CreateStorage a rc _ d) as [e d']. simpl. by rewrite IH.
Qed.

Lemma imported_entries_app names1 names2 outs1 outs2 :
  length outs1 = length names1 →
  imported_entries (names1 ++ names2) (outs1 ++ outs2)
  = imported_entries names1 outs1 ++ imported_entries names2 outs2.
Proof.
  revert outs1. induction names1 as [|r names1 IH]; intros [|[e|] outs1] Hlen;
    simplify_eq/=; try done.
  - by apply IH.
  - f_equal. by apply IH.
Qed.

Lemma failed_entries_app names1 names2 outs1 outs2 :
  length outs1 = length names1 →
  failed_entries (names1 ++ names2) (outs1 ++ outs2)
  = failed_entries names1 outs1 ++ failed_entries names2 outs2.
Proof.
  revert outs1. induction names1 as [|r names1 IH]; intros [|[e|] outs1] Hlen;
    simplify_eq/=; try done.
  - f_equal. by apply IH.
  - by apply IH.
Qed.

Lemma failures_app outs1 outs2 :
  failures (outs1 ++ outs2) = failures outs1 ++ failures outs2.
Proof. apply omap_app. Qed.

Lemma failed_entries_messages names outs :
  length outs = length names →
  ir_message <$> failed_entries names outs
  = (λ e, Some (Error e)) <$> failures outs.
Proof.
  revert outs. induction names as [|r names IH]; intros [|[e|] outs] Hlen;
    simplify_eq/=; try done.
  - unfold failures. simpl. f_equal. by apply IH.
  - by apply IH.
Qed.

Lemma imported_entries_no_message names outs :
  Forall (λ x, ir_message x = None) (imported_entries names outs).
Proof.
  revert outs. induction names as [|r names IH]; intros [|[e|] outs]; simpl;
    try constructor; try done; apply IH.
Qed.

Lemma imported_entries_all_ok names outs :
  length outs = length names →
  Forall (λ o, o = None) outs →
  imported_entries names outs = success_entry <$> names
  ∧ failed_entries names outs = [] ∧ failures outs = [].
Proof.
  revert outs. induction names as [|r names IH]; intros [|o outs] Hlen Hall;
    simplify_eq/=; try done.
  apply Forall_cons in Hall as [-> Hall].
  destruct (IH outs) as (-> & -> & Hf); done.
Qed.

Lemma failed_entries_all_failed names outs :
  length outs = length names →
  Forall is_Some outs →
  imported_entries names outs = []
  ∧ ir_name <$> failed_entries names outs = names
  ∧ length (failures outs) = length names.
Proof.
  revert outs. induction names as [|r names IH]; intros [|o outs] Hlen Hall;
    simplify_eq/=; try done.
  apply Forall_cons in Hall as [[e ->] Hall].
  destruct (IH outs) as (Hi & Hn & Hf); try done.
  split; [done|]. split.
  - rewrite fmap_cons. simpl. by f_equal.
  - unfold failures in *. simpl. by rewrite Hf.
Qed.

(** *** Chains of handlers *)

Lemma run_chain_nil ctx w : run_chain (@nil handler_func) ctx w = (tt, w).
Proof. reflexivity. Qed.

Lemma run_chain_cons (h : handler_func) hs ctx w :
  run_chain (h :: hs) ctx w
  = if aborted (writer w) then (tt, w)
    else run_chain hs ctx (h ctx w).2.
Proof.
  simpl. unfold mbind, mret, Handler_bind, Handler_ret, get_writer.
  destruct (aborted (writer w)); [done|].
  by destruct (h ctx w) as [[] w'].
Qed.

Lemma run_chain_aborted (hs : list handler_func) ctx w :
  aborted (writer w) = true → run_chain hs ctx w = (tt, w).
Proof.
  intros Hab. destruct hs as [|h hs]; [done|].
  by rewrite run_chain_cons, Hab.
Qed.

Lemma run_chain_app (hs1 hs2 : list handler_func) ctx w :
  run_chain (hs1 ++ hs2) ctx w
  = run_chain hs2 ctx (run_chain hs1 ctx w).2.
Proof.
  revert w. induction hs1 as [|h hs1 IH]; intros w; [done|].
  rewrite <- app_comm_cons, !run_chain_cons.
  destruct (aborted (writer w)) eqn:Hab; [|apply IH].
  simpl. by rewrite run_chain_aborted.
Qed.

(** A chain that ends in [h]: [h] runs in the world the handlers before it
    leave, unless they aborted the request. *)
Lemma run_chain_snoc (hs : list handler_func) (h : handler_func) ctx w :
  run_chain (hs ++ [h]) ctx w
  = if aborted (writer (run_chain hs ctx w).2) then run_chain hs ctx w
    else h ctx (run_chain hs ctx w).2.
Proof.
  rewrite run_chain_app, run_chain_cons.
  destruct (run_chain hs ctx w) as [[] w1]. simpl.
  destruct (aborted (writer w1)); [done|].
  by destruct (h ctx w1) as [[] w2].
Qed.

(** *** The import handler *)

(** X1.  One import of a list that is the concatenation of two lists does
    what the import of the first followed by the import of the second does:
    the same create calls in the same order, the same domain state, the same
    warnings, and a report whose two lists are the concatenation of the two
    reports' lists. *)
Theorem importStoragesHandler_app sh ctx1 ctx2 ctx d req1 req2 req :
  ShouldBindWith (T:=slice string) ctx1 = inr req1 →
  ShouldBindWith (T:=slice string) ctx2 = inr req2 →
  ShouldBindWith (T:=slice string) ctx = inr req →
  elems req = elems req1 ++ elems req2 →
  Request_Context ctx1 = Request_Context ctx →
  Request_Context ctx2 = Request_Context ctx →
  ∃ resp1 resp2 resp,
    body (writer (serve (importStoragesHandler sh ctx1) d))
    = JSONBody (ObjImport resp1)
    ∧ body (writer (serve (importStoragesHandler sh ctx2)
                      (domain (serve (importStoragesHandler sh ctx1) d))))
      = JSONBody (ObjImport resp2)
    ∧ body (writer (serve (importStoragesHandler sh ctx) d))
      = JSONBody (ObjImport resp)
    ∧ elems (Imported resp) = elems (Imported resp1) ++ elems (Imported resp2)
    ∧ elems (Failed resp) = elems (Failed resp1) ++ elems (Failed resp2)
    ∧ domain (serve (importStoragesHandler sh ctx) d)
      = domain (serve (importStoragesHandler sh ctx2)
                  (domain (serve (importStoragesHandler sh ctx1) d)))
    ∧ calls (serve (importStoragesHandler sh ctx) d)
      = calls (serve (importStoragesHandler sh ctx1) d)
        ++ calls (serve (importStoragesHandler sh ctx2)
                    (domain (serve (importStoragesHandler sh ctx1) d)))
    ∧ warnings (serve (importStoragesHandler sh ctx) d)
      = warnings (serve (importStoragesHandler sh ctx1) d)
        ++ warnings (serve (importStoragesHandler sh ctx2)
                       (domain (serve (importStoragesHandler sh ctx1) d))).
Proof.
  intros Hb1 Hb2 Hb Helems Hrc1 Hrc2.
  rewrite (importStoragesHandler_bound _ _ _ _ Hb1). simpl.
  rewrite (importStoragesHandler_bound _ _ _ _ Hb2). simpl.
  rewrite (importStoragesHandler_bound _ _ _ _ Hb). simpl.
  rewrite Hrc1, Hrc2, Helems.
  do 3 eexists. do 3 (split; [reflexivity|]). simpl.
  rewrite create_outcomes_app, create_all_app, failures_app, fmap_app.
  rewrite imported_entries_app, failed_entries_app
    by apply create_outcomes_length'.
  done.
Qed.

(** X2.  Importing the single name [r] and creating the storage
    {Name: r, Size: 100} make the same call and leave the same domain state;
    the import reports under 202 what the create handler answers: the name
    imported where create answers 201, the name failed with the error's
    message where create answers with the translated error. *)
Theorem import_one_name_as_create sh ctxI ctxC d req r :
  ShouldBindWith (T:=slice string) ctxI = inr req →
  elems req = [r] →
  ShouldBindWith (T:=Storage) ctxC = inr {| Name := r; Size := 100 |} →
  Request_Context ctxC = Request_Context ctxI →
  calls (serve (importStoragesHandler sh ctxI) d)
  = calls (serve (createStorageHandler sh ctxC) d)
  ∧ domain (serve (importStoragesHandler sh ctxI) d)
    = domain (serve (createStorageHandler sh ctxC) d)
  ∧ match (CreateStorage (acts sh) (Request_Context ctxI)
             {| Name := r; Size := 100 |} d).1 with
    | None =>
        writer (serve (createStorageHandler sh ctxC) d)
        = empty_response StatusCreated
        ∧ writer (serve (importStoragesHandler sh ctxI) d)
          = json_response StatusAccepted
              (ObjImport {| Imported := make_slice [success_entry r];
                            Failed := make_slice [] |})
    | Some e =>
        writer (serve (createStorageHandler sh ctxC) d)
        = error_response (HandleError (tv sh) e)
        ∧ writer (serve (importStoragesHandler sh ctxI) d)
          = json_response StatusAccepted
              (ObjImport {| Imported := make_slice [];
                            Failed := make_slice [failure_entry r e] |})
    end.
Proof.
  intros HbI Helems HbC Hrc.
  rewrite (importStoragesHandler_bound _ _ _ _ HbI).
  rewrite (createStorageHandler_bound _ _ _ _ HbC).
  rewrite Helems, Hrc. simpl. unfold import_store.
  destruct (CreateStorage (acts sh) (Request_Context ctxI)
              {| Name := r; Size := 100 |} d) as [[e|] d']; simpl; done.
Qed.

(** X3.  The import handler never consults the error translator for an
    item that fails: on a body that binds, two handler sets that differ only
    in their [TranslateValidate] leave the same world. *)
Theorem importStoragesHandler_translator_free
    (tv1 tv2 : TranslateValidate (error:=error) (RequestCtx:=RequestCtx)
                 (Body:=Body) (ErrBody:=ErrBody)) a ctx d req :
  ShouldBindWith (T:=slice string) ctx = inr req →
  serve (importStoragesHandler {| tv := tv1; acts := a |} ctx) d
  = serve (importStoragesHandler {| tv := tv2; acts := a |} ctx) d.
Proof.
  intros Hb.
  by rewrite !(importStoragesHandler_bound _ _ _ _ Hb).
Qed.

(** X4.  The import handler logs one warning per failed entry, in the order
    of the failed list, and the message of each failed entry is [Error()] of
    the warning logged for it; no imported entry carries a message. *)
Theorem importStoragesHandler_failed_logged sh ctx d req :
  ShouldBindWith (T:=slice string) ctx = inr req →
  ∃ resp,
    body (writer (serve (importStoragesHandler sh ctx) d))
    = JSONBody (ObjImport resp)
    ∧ ir_message <$> elems (Failed resp)
      = (λ e, Some (Error e))
          <$> warnings (serve (importStoragesHandler sh ctx) d)
    ∧ Forall (λ x, ir_message x = None) (elems (Imported resp)).
Proof.
  intros Hb. rewrite (importStoragesHandler_bound _ _ _ _ Hb). simpl.
  eexists. split; [reflexivity|]. simpl. split.
  - apply failed_entries_messages, create_outcomes_length'.
  - apply imported_entries_no_message.
Qed.

(** X5.  When no create fails, the failed list is empty, nothing is logged
    and the imported list names the whole input in order; when every create
    fails, the imported list is empty, the failed list names the whole input
    in order and one warning is logged per name. *)
Theorem importStoragesHandler_uniform sh ctx d req :
  ShouldBindWith (T:=slice string) ctx = inr req →
  (Forall (λ o, o = None)
     (create_outcomes (acts sh) (Request_Context ctx) (elems req) d) →
   writer (serve (importStoragesHandler sh ctx) d)
   = json_response StatusAccepted
       (ObjImport {| Imported := make_slice (success_entry <$> elems req);
                     Failed := make_slice [] |})
   ∧ warnings (serve (importStoragesHandler sh ctx) d) = [])
  ∧ (Forall is_Some
       (create_outcomes (acts sh) (Request_Context ctx) (elems req) d) →
     ∃ resp,
       writer (serve (importStoragesHandler sh ctx) d)
       = json_response StatusAccepted (ObjImport resp)
       ∧ Imported resp = make_slice []
       ∧ ir_name <$> elems (Failed resp) = elems req
       ∧ length (warnings (serve (importStoragesHandler sh ctx) d))
         = len req).
Proof.
  intros Hb. rewrite (importStoragesHandler_bound _ _ _ _ Hb). simpl.
  pose proof (create_outcomes_length' (acts sh) (Request_Context ctx)
                (elems req) d) as Hlen.
  split; intros Hall.
  - destruct (imported_entries_all_ok _ _ Hlen Hall) as (-> & -> & ->). done.
  - destruct (failed_entries_all_failed _ _ Hlen Hall) as (Hi & Hn & Hf).
    eexists. split; [reflexivity|]. simpl. by rewrite Hi.
Qed.

(** *** All five handlers *)

(** X6.  The delete handler does not read the body of the request, and the
    list handler reads neither the body nor the path parameters: replacing
    them changes nothing in the world the handler leaves. *)
Theorem delete_list_body_free sh ctx d (b : Body) (ps : list (string * string)) :
  serve (deleteStorageHandler sh (with_body ctx b)) d
  = serve (deleteStorageHandler sh ctx) d
  ∧ serve (getStoragesHandler sh (with_body_params ctx b ps)) d
    = serve (getStoragesHandler sh ctx) d.
Proof. by rewrite !deleteStorageHandler_run, !getStoragesHandler_run. Qed.

(** X7.  Whatever the request, each of the five handlers leaves the context
    aborted exactly when the body it rendered is an error object: a success
    never aborts the chain and an error is never rendered without
    aborting. *)
Theorem aborted_iff_error_body sh ctx d :
  Forall (λ h : handlers' → handler_func,
            aborted (writer (serve (h sh ctx) d))
            = is_error_body (body (writer (serve (h sh ctx) d))))
         [createStorageHandler; importStoragesHandler; getStoragesHandler;
          updateStorageHandler; deleteStorageHandler].
Proof.
  repeat (apply Forall_cons; split); [..|apply Forall_nil_2].
  - destruct (ShouldBindWith (T:=Storage) ctx) as [err|req] eqn:Hb.
    + by rewrite (createStorageHandler_malformed _ _ _ _ Hb).
    + rewrite (createStorageHandler_bound _ _ _ _ Hb). simpl.
      by destruct (CreateStorage _ _ _ _).1.
  - destruct (ShouldBindWith (T:=slice string) ctx) as [err|req] eqn:Hb.
    + by rewrite (importStoragesHandler_malformed _ _ _ _ Hb).
    + by rewrite (importStoragesHandler_bound _ _ _ _ Hb).
  - rewrite getStoragesHandler_run. simpl.
    by destruct (GetStorages _ _ _).1.2.
  - destruct (ShouldBindWith (T:=UpdateStorageRequest) ctx) as [err|req] eqn:Hb.
    + by rewrite (updateStorageHandler_malformed _ _ _ _ Hb).
    + rewrite (updateStorageHandler_bound _ _ _ _ Hb). simpl.
      by destruct (UpdateStorage _ _ _ _ _).1.
  - rewrite deleteStorageHandler_run. simpl.
    by destruct (DeleteStorage _ _ _ _).1.
Qed.

(** X8.  The create, list, update and delete handlers never log a warning
    and call the action layer at most once, whatever the request and
    whatever the action returns. *)
Theorem single_handlers_quiet sh ctx d :
  Forall (λ h : handlers' → handler_func,
            warnings (serve (h sh ctx) d) = []
            ∧ (length (calls (serve (h sh ctx) d)) ≤ 1)%nat)
         [createStorageHandler; getStoragesHandler;
          updateStorageHandler; deleteStorageHandler].
Proof.
  repeat (apply Forall_cons; split); [..|apply Forall_nil_2].
  - destruct (ShouldBindWith (T:=Storage) ctx) as [err|req] eqn:Hb.
    + rewrite (createStorageHandler_malformed _ _ _ _ Hb). simpl.
      split; [done|lia].
    + by rewrite (createStorageHandler_bound _ _ _ _ Hb).
  - by rewrite getStoragesHandler_run.
  - destruct (ShouldBindWith (T:=UpdateStorageRequest) ctx) as [err|req] eqn:Hb.
    + rewrite (updateStorageHandler_malformed _ _ _ _ Hb). simpl.
      split; [done|lia].
    + by rewrite (updateStorageHandler_bound _ _ _ _ Hb).
  - by rewrite deleteStorageHandler_run.
Qed.

Lemma ByName_missing (ps : list (string * string)) key :
  (∀ v, (key, v) ∉ ps) → ByName ps key = "".
Proof.
  induction ps as [|[k v] ps IH]; intros Hmiss; simpl; [done|].
  destruct (decide (k = key)) as [->|Hne].
  - exfalso. apply (Hmiss v). by left.
  - apply IH. intros v' Hin. apply (Hmiss v'). by right.
Qed.

(** X11.  The update and delete handlers do not check the name themselves:
    on a request without a "name" path parameter they call the action with
    the empty string as the name (the update handler once its body binds)
    and answer whatever that call gives. *)
Theorem update_delete_unnamed sh ctx d :
  (∀ v, ("name", v) ∉ Params ctx) →
  calls (serve (deleteStorageHandler sh ctx) d)
  = [CallDeleteStorage (Request_Context ctx) ""]
  ∧ ∀ req,
      ShouldBindWith (T:=UpdateStorageRequest) ctx = inr req →
      calls (serve (updateStorageHandler sh ctx) d)
      = [CallUpdateStorage (Request_Context ctx) "" req].
Proof.
  intros Hmiss. pose proof (ByName_missing _ _ Hmiss) as Hname.
  split.
  - rewrite deleteStorageHandler_run. simpl. unfold Param. by rewrite Hname.
  - intros req Hb. rewrite (updateStorageHandler_bound _ _ _ _ Hb). simpl.
    unfold Param. by rewrite Hname.
Qed.

(** *** The routes *)
Section Routes.

Variable joinPaths : string → string → string.
Variable RequireAdminRole : handler_func.

Abbreviation router' := (Router (error:=error) (RequestCtx:=RequestCtx)
  (Body:=Body) (ErrBody:=ErrBody) (UpdateStorageRequest:=UpdateStorageRequest)
  (St:=St)).
Abbreviation registration := (Registration (error:=error)
  (RequestCtx:=RequestCtx) (Body:=Body) (ErrBody:=ErrBody)
  (UpdateStorageRequest:=UpdateStorageRequest) (St:=St)).

Implicit Types (r : router') (table : list registration).

Lemma SetupStorageHandlers_table r a table :
  SetupStorageHandlers joinPaths RequireAdminRole r a table
  = table ++ storage_routes joinPaths RequireAdminRole r a table.
Proof.
  unfold storage_routes, SetupStorageHandlers, POST, GET, PUT, DELETE, handle.
  rewrite <- !app_assoc. by rewrite drop_app_length.
Qed.

Lemma storage_routes_list r a table :
  storage_routes joinPaths RequireAdminRole r a table
  = storage_routes joinPaths RequireAdminRole r a [].
Proof.
  unfold storage_routes, SetupStorageHandlers, POST, GET, PUT, DELETE, handle.
  rewrite <- !app_assoc. by rewrite drop_app_length.
Qed.

(** X9.  [SetupStorageHandlers] keeps every registration made before it and
    adds five after them.  The first four are POST and GET on the group
    path and PUT and DELETE on that path with a name parameter; each runs
    the handlers of the engine, then the admin middleware, and its storage
    handler only if the request is not aborted by then, in the world they
    left. *)
Theorem storage_routes_gated r a table ctx w :
  take (length table) (SetupStorageHandlers joinPaths RequireAdminRole r a table)
  = table
  ∧ length (SetupStorageHandlers joinPaths RequireAdminRole r a table)
    = (length table + 5)%nat
  ∧ (λ reg, (reg_method reg, reg_path reg))
      <$> take 4 (storage_routes joinPaths RequireAdminRole r a table)
    = [("POST", joinPaths (joinPaths (basePath (Router_engine r)) "/storages") "");
       ("GET", joinPaths (joinPaths (basePath (Router_engine r)) "/storages") "");
       ("PUT", joinPaths (joinPaths (basePath (Router_engine r)) "/storages") "/:name");
       ("DELETE", joinPaths (joinPaths (basePath (Router_engine r)) "/storages") "/:name")]
  ∧ Forall2
      (λ reg (h : handlers' → handler_func),
         run_chain (reg_chain reg) ctx w
         = if aborted (writer (run_chain (Handlers (Router_engine r)
                                            ++ [RequireAdminRole]) ctx w).2)
           then run_chain (Handlers (Router_engine r) ++ [RequireAdminRole]) ctx w
           else h {| tv := Router_tv r; acts := a |} ctx
                  (run_chain (Handlers (Router_engine r)
                                ++ [RequireAdminRole]) ctx w).2)
      (take 4 (storage_routes joinPaths RequireAdminRole r a table))
      [createStorageHandler; getStoragesHandler;
       updateStorageHandler; deleteStorageHandler].
Proof.
  split; [|split; [|split]].
  - rewrite SetupStorageHandlers_table. by rewrite take_app_length.
  - unfold SetupStorageHandlers, POST, GET, PUT, DELETE, handle.
    rewrite !length_app. simpl. lia.
  - by rewrite storage_routes_list.
  - rewrite storage_routes_list.
    unfold storage_routes, SetupStorageHandlers, POST, GET, PUT, DELETE,
      handle, Group. simpl.
    repeat constructor; apply run_chain_snoc.
Qed.

(** X10.  The last registration of [SetupStorageHandlers] is POST on the
    import path under the engine's own base path, outside the group: its
    chain is the handlers of the engine followed by the import handler, and
    the admin middleware is not run for it. *)
Theorem import_route_not_gated r a table ctx w :
  ∃ reg,
    last (SetupStorageHandlers joinPaths RequireAdminRole r a table) = Some reg
    ∧ reg_method reg = "POST"
    ∧ reg_path reg = joinPaths (basePath (Router_engine r)) "/import/storages"
    ∧ run_chain (reg_chain reg) ctx w
      = if aborted (writer (run_chain (Handlers (Router_engine r)) ctx w).2)
        then run_chain (Handlers (Router_engine r)) ctx w
        else importStoragesHandler {| tv := Router_tv r; acts := a |} ctx
               (run_chain (Handlers (Router_engine r)) ctx w).2.
Proof.
  eexists. split.
  - unfold SetupStorageHandlers. unfold POST at 1. unfold handle at 1.
    apply last_snoc.
  - simpl. do 2 (split; [done|]). apply run_chain_snoc.
Qed.

End Routes.

End MoreProperties.

(** ** The handlers on the stand-in action layer *)

Import StandIn.

(** C1, as stated, fails: a bulk-import request whose body is not a list of
    names is not answered 202 with an [ImportResponse]. *)
Lemma importStoragesHandler_malformed_not_accepted :
  ¬ ∃ resp,
      writer (serve (importStoragesHandler (handlers 100) import_garbage) [])
      = json_response StatusAccepted (ObjImport resp).
Proof. intros [resp Hresp]. vm_compute in Hresp. discriminate Hresp. Qed.

(** The response to that request: 400 with the validation error. *)
Example importStoragesHandler_malformed_run :
  serve (importStoragesHandler (handlers 100) import_garbage) []
  = {| writer := {| status := 400;
                    body := JSONBody (ObjError "validation failed: invalid name list");
                    aborted := true |};
       domain := []; calls := []; warnings := [] |}.
Proof. reflexivity. Qed.

(** A name given twice can be recorded in both lists: once per position. *)
Example import_twice_run :
  writer (serve (importStoragesHandler (handlers 300) import_twice) [])
  = json_response StatusAccepted
      (ObjImport
         {| Imported := make_slice [success_entry "a"];
            Failed := make_slice [failure_entry "a" "already exists"] |}).
Proof. reflexivity. Qed.

Lemma importStoragesHandler_partition_witness :
  ∃ resp,
    body (writer (serve (importStoragesHandler (handlers 100) import_vols) []))
    = JSONBody (ObjImport resp)
    ∧ (len (Imported resp) + len (Failed resp))%nat = 2%nat
    ∧ (ir_name <$> elems (Imported resp)) ++ (ir_name <$> elems (Failed resp))
      ≡ₚ ["vol1"; "vol2"]
    ∧ ∃ oks : list bool,
        length oks = 2%nat
        ∧ ir_name <$> elems (Imported resp) = select true ["vol1"; "vol2"] oks
        ∧ ir_name <$> elems (Failed resp) = select false ["vol1"; "vol2"] oks.
Proof.
  apply (importStoragesHandler_partition (handlers 100) import_vols [] vol1_vol2).
  reflexivity.
Defined.

(** The example of the spec: "vol1" accepted, "vol2" rejected on quota. *)
Lemma importStoragesHandler_items_witness :
  writer (serve (importStoragesHandler (handlers 100) import_vols) [])
  = json_response StatusAccepted
      (ObjImport
         {| Imported := make_slice
              [{| ir_name := "vol1"; ir_secondary := ""; ir_message := None |}];
            Failed := make_slice
              [{| ir_name := "vol2"; ir_secondary := "";
                  ir_message := Some "quota exceeded" |}] |}).
Proof.
  apply (proj2 (importStoragesHandler_items (handlers 100) import_vols [])
           [{| Name := "vol1"; Size := 100 |}]
           [{| Name := "vol1"; Size := 100 |}]
           "quota exceeded"); reflexivity.
Defined.

Lemma importStoragesHandler_order_witness :
  calls (serve (importStoragesHandler (handlers 100) import_vols) [])
  = [CallCreateStorage () {| Name := "vol1"; Size := 100 |};
     CallCreateStorage () {| Name := "vol2"; Size := 100 |}]
  ∧ domain (serve (importStoragesHandler (handlers 100) import_vols) [])
    = [{| Name := "vol1"; Size := 100 |}]
  ∧ warnings (serve (importStoragesHandler (handlers 100) import_vols) [])
    = ["quota exceeded"]
  ∧ ∃ resp,
      body (writer (serve (importStoragesHandler (handlers 100) import_vols) []))
      = JSONBody (ObjImport resp)
      ∧ sublist (ir_name <$> elems (Imported resp)) ["vol1"; "vol2"]
      ∧ sublist (ir_name <$> elems (Failed resp)) ["vol1"; "vol2"].
Proof.
  apply (importStoragesHandler_order (handlers 100) import_vols [] vol1_vol2).
  reflexivity.
Defined.

Lemma malformed_body_rejected_witness :
  serve (createStorageHandler (handlers 100) garbage_on_a) []
  = {| writer := {| status := 400;
                    body := JSONBody (ObjError "validation failed: invalid storage");
                    aborted := true |};
       domain := []; calls := []; warnings := [] |}
  ∧ serve (updateStorageHandler (handlers 100) garbage_on_a) []
    = {| writer := {| status := 400;
                      body := JSONBody (ObjError "validation failed: invalid update");
                      aborted := true |};
         domain := []; calls := []; warnings := [] |}.
Proof.
  split.
  - apply (proj1 (malformed_body_rejected (handlers 100) garbage_on_a [])
             "invalid storage"); reflexivity.
  - apply (proj2 (malformed_body_rejected (handlers 100) garbage_on_a [])
             "invalid update"); reflexivity.
Defined.

Lemma createStorageHandler_created_witness :
  calls (serve (createStorageHandler (handlers 100) create_a) [])
  = [CallCreateStorage () {| Name := "a"; Size := 5 |}]
  ∧ writer (serve (createStorageHandler (handlers 100) create_a) [])
    = {| status := 201; body := NoBody; aborted := false |}.
Proof.
  apply (createStorageHandler_created (handlers 100) create_a []
           {| Name := "a"; Size := 5 |}).
  reflexivity.
Defined.

(** The body asks for the name "b"; the action is aimed at the path's "a". *)
Lemma update_delete_target_path_witness :
  calls (serve (updateStorageHandler (handlers 100) rename_a_to_b)
           [{| Name := "a"; Size := 1 |}])
  = [CallUpdateStorage () "a" {| upd_name := "b"; upd_size := 5 |}]
  ∧ writer (serve (updateStorageHandler (handlers 100) rename_a_to_b)
              [{| Name := "a"; Size := 1 |}])
    = {| status := 202; body := NoBody; aborted := false |}.
Proof.
  exact (proj1 (proj2 (proj2
           (update_delete_target_path (handlers 100) rename_a_to_b
              [{| Name := "a"; Size := 1 |}])))).
Defined.

Lemma failed_update_delete_no_write_witness :
  serve (updateStorageHandler (handlers 100) rename_a_to_b)
        [{| Name := "c"; Size := 1 |}]
  = {| writer := {| status := 404; body := JSONBody (ObjError "not found");
                    aborted := true |};
       domain := [{| Name := "c"; Size := 1 |}];
       calls := [CallUpdateStorage () "a" {| upd_name := "b"; upd_size := 5 |}];
       warnings := [] |}
  ∧ serve (deleteStorageHandler (handlers 100) garbage_on_a)
          [{| Name := "c"; Size := 1 |}]
    = {| writer := {| status := 404; body := JSONBody (ObjError "not found");
                      aborted := true |};
         domain := [{| Name := "c"; Size := 1 |}];
         calls := [CallDeleteStorage () "a"];
         warnings := [] |}.
Proof.
  split.
  - apply (proj1 (failed_update_delete_no_write (handlers 100) rename_a_to_b
                    [{| Name := "c"; Size := 1 |}])
             {| upd_name := "b"; upd_size := 5 |} "not found"); reflexivity.
  - apply (proj2 (failed_update_delete_no_write (handlers 100) garbage_on_a
                    [{| Name := "c"; Size := 1 |}])
             "not found"); reflexivity.
Defined.

Lemma importStoragesHandler_empty_witness :
  serve (importStoragesHandler (handlers 100) import_nothing) []
  = {| writer := {| status := 202;
                    body := JSONBody (ObjImport {| Imported := make_slice [];
                                                   Failed := make_slice [] |});
                    aborted := false |};
       domain := []; calls := []; warnings := [] |}.
Proof.
  apply (proj1 (importStoragesHandler_empty (handlers 100) import_nothing []
                  (make_slice []) eq_refl)).
  reflexivity.
Defined.

(** *** Runs for the further properties *)

Lemma importStoragesHandler_app_witness :
  ∃ resp1 resp2 resp,
    body (writer (serve (importStoragesHandler (handlers 100) import_vol1) []))
    = JSONBody (ObjImport resp1)
    ∧ body (writer (serve (importStoragesHandler (handlers 100) import_vol2)
                      (domain (serve (importStoragesHandler (handlers 100)
                                        import_vol1) []))))
      = JSONBody (ObjImport resp2)
    ∧ body (writer (serve (importStoragesHandler (handlers 100) import_vols) []))
      = JSONBody (ObjImport resp)
    ∧ elems (Imported resp) = elems (Imported resp1) ++ elems (Imported resp2)
    ∧ elems (Failed resp) = elems (Failed resp1) ++ elems (Failed resp2)
    ∧ domain (serve (importStoragesHandler (handlers 100) import_vols) [])
      = domain (serve (importStoragesHandler (handlers 100) import_vol2)
                  (domain (serve (importStoragesHandler (handlers 100)
                                    import_vol1) [])))
    ∧ calls (serve (importStoragesHandler (handlers 100) import_vols) [])
      = calls (serve (importStoragesHandler (handlers 100) import_vol1) [])
        ++ calls (serve (importStoragesHandler (handlers 100) import_vol2)
                    (domain (serve (importStoragesHandler (handlers 100)
                                      import_vol1) [])))
    ∧ warnings (serve (importStoragesHandler (handlers 100) import_vols) [])
      = warnings (serve (importStoragesHandler (handlers 100) import_vol1) [])
        ++ warnings (serve (importStoragesHandler (handlers 100) import_vol2)
                       (domain (serve (importStoragesHandler (handlers 100)
                                         import_vol1) []))).
Proof.
  apply (importStoragesHandler_app (handlers 100) import_vol1 import_vol2
           import_vols [] (make_slice ["vol1"]) (make_slice ["vol2"]) vol1_vol2);
    reflexivity.
Defined.

Lemma import_one_name_as_create_witness :
  calls (serve (importStoragesHandler (handlers 100) import_vol1) [])
  = calls (serve (createStorageHandler (handlers 100) create_vol1) [])
  ∧ domain (serve (importStoragesHandler (handlers 100) import_vol1) [])
    = domain (serve (createStorageHandler (handlers 100) create_vol1) [])
  ∧ writer (serve (createStorageHandler (handlers 100) create_vol1) [])
    = empty_response StatusCreated
  ∧ writer (serve (importStoragesHandler (handlers 100) import_vol1) [])
    = json_response StatusAccepted
        (ObjImport {| Imported := make_slice [success_entry "vol1"];
                      Failed := make_slice [] |}).
Proof.
  exact (import_one_name_as_create (handlers 100) import_vol1 create_vol1 []
           (make_slice ["vol1"]) "vol1" eq_refl eq_refl eq_refl eq_refl).
Defined.

Lemma importStoragesHandler_translator_free_witness :
  serve (importStoragesHandler {| tv := translate; acts := actions 100 |}
           import_vols) []
  = serve (importStoragesHandler {| tv := translate_flat; acts := actions 100 |}
             import_vols) [].
Proof.
  apply (importStoragesHandler_translator_free translate translate_flat
           (actions 100) import_vols [] vol1_vol2).
  reflexivity.
Defined.

Lemma importStoragesHandler_failed_logged_witness :
  ∃ resp,
    body (writer (serve (importStoragesHandler (handlers 100) import_vols) []))
    = JSONBody (ObjImport resp)
    ∧ ir_message <$> elems (Failed resp)
      = (λ e, Some (Error e))
          <$> warnings (serve (importStoragesHandler (handlers 100) import_vols) [])
    ∧ Forall (λ x, ir_message x = None) (elems (Imported resp)).
Proof.
  apply (importStoragesHandler_failed_logged (handlers 100) import_vols []
           vol1_vol2).
  reflexivity.
Defined.

(** With room for both storages nothing fails; with no room both fail. *)
Lemma importStoragesHandler_uniform_witness :
  (writer (serve (importStoragesHandler (handlers 300) import_vols) [])
   = json_response StatusAccepted
       (ObjImport {| Imported := make_slice [success_entry "vol1";
                                             success_entry "vol2"];
                     Failed := make_slice [] |})
   ∧ warnings (serve (importStoragesHandler (handlers 300) import_vols) []) = [])
  ∧ ∃ resp,
      writer (serve (importStoragesHandler (handlers 0) import_vols) [])
      = json_response StatusAccepted (ObjImport resp)
      ∧ Imported resp = make_slice []
      ∧ ir_name <$> elems (Failed resp) = ["vol1"; "vol2"]
      ∧ length (warnings (serve (importStoragesHandler (handlers 0) import_vols) []))
        = 2%nat.
Proof.
  split.
  - apply (proj1 (importStoragesHandler_uniform (handlers 300) import_vols []
                    vol1_vol2 eq_refl)).
    repeat constructor.
  - apply (proj2 (importStoragesHandler_uniform (handlers 0) import_vols []
                    vol1_vol2 eq_refl)).
    repeat constructor; by eexists.
Defined.

Lemma update_delete_unnamed_witness :
  calls (serve (deleteStorageHandler (handlers 100) delete_unnamed) [])
  = [CallDeleteStorage () ""].
Proof.
  apply (update_delete_unnamed (handlers 100) delete_unnamed []).
  intros v Hin. inversion Hin.
Defined.

(** The admin check turns a create request away before the handler runs;
    the import route is registered outside the group and is served. *)
Example routes_under_deny_all :
  (λ reg, (reg_method reg, reg_path reg,
           status (writer (run_chain (reg_chain reg) import_vol1 (fresh_world [])).2),
           length (calls (run_chain (reg_chain reg) import_vol1 (fresh_world [])).2)))
    <$> SetupStorageHandlers join deny_all router (actions 100) []
  = [("POST", "/storages", 403, 0%nat);
     ("GET", "/storages", 403, 0%nat);
     ("PUT", "/storages/:name", 403, 0%nat);
     ("DELETE", "/storages/:name", 403, 0%nat);
     ("POST", "/import/storages", 202, 1%nat)].
Proof. reflexivity. Qed.
